(** * PackageDev: the output panel wrapper and the scope taxonomy table

    A shallow embedding of [Lib/sublime_lib/view/output_view.py] (class
    [OutputPanel]) and of [scope_data/data.py] (the [DATA] table), with the
    properties the specification states about them.

    The editor (the [window] object, its views and their settings) is not
    part of the repository.  It is an interface here: a type class of the
    operations the wrapper calls, and separate classes of laws a host may
    obey; a statement that needs one says so.  The wrapper's methods are written
    in a state monad over the host state and a log of the host calls made, in
    call order, so that both "which calls are made" and "what the host holds
    afterwards" can be stated. *)

From Stdlib Require Import Ascii.
From stdpp Require Import base option list strings gmap.


(** ** The host window *)

(** One call into the host, as the wrapper issues it. *)
Inductive HostCall (V : Type) : Type :=
| CallGetOutputPanel (name : string)
    (* window.get_output_panel(name) *)
| CallSettingsSet (v : V) (key value : string)
    (* view.settings().set(key, value) *)
| CallAppend (v : V) (text : string)
    (* the buffer primitive behind _view.append *)
| CallErase (v : V)
    (* the buffer primitive behind _view.clear *)
| CallRunCommand (cmd : string) (args : gmap string string).
    (* window.run_command(cmd, args) *)

Arguments CallGetOutputPanel {V} name.
Arguments CallSettingsSet {V} v key value.
Arguments CallAppend {V} v text.
Arguments CallErase {V} v.
Arguments CallRunCommand {V} cmd args.

(** The capability set of the host window: [W] is the state of the window
    (its panels, their buffers and settings), [V] the type of view handles.
    [find_output_panel], [settings_get] and [buffer_content] are
    observations; the wrapper itself never calls them. *)
Class HostWindow (W V : Type) : Type := {
  get_output_panel : string → W → V * W;
  find_output_panel : string → W → option V;
  settings_set : V → string → string → W → W;
  settings_get : V → string → W → option string;
  buffer_append : V → string → W → W;
  buffer_erase : V → W → W;
  buffer_content : V → W → string;
  run_command : string → gmap string string → W → W
}.

(** The per-view settings store is a key/value store, and fetching a panel
    does not disturb the settings of any view.  Not every host is like
    this: [clearing_host] below empties a view's settings when its panel is
    fetched.  Nothing about the wrapper is stated under these laws unless
    the statement names them. *)
Class SettingsLaws (W V : Type) `{HostWindow W V} : Prop := {
  settings_get_set_eq (v : V) (k x : string) (h : W) :
    settings_get v k (settings_set v k x h) = Some x;
  settings_get_set_ne (v v' : V) (k k' x : string) (h : W) :
    (v, k) ≠ (v', k') →
    settings_get v' k' (settings_set v k x h) = settings_get v' k' h;
  settings_get_fetch (n : string) (v : V) (k : string) (h : W) :
    settings_get v k (get_output_panel n h).2 = settings_get v k h
}.

(** Buffer edits and the two visibility commands leave settings alone. *)
Class SettingsFrameLaws (W V : Type) `{HostWindow W V} : Prop := {
  settings_get_append (v v' : V) (k t : string) (h : W) :
    settings_get v' k (buffer_append v t h) = settings_get v' k h;
  settings_get_erase (v v' : V) (k : string) (h : W) :
    settings_get v' k (buffer_erase v h) = settings_get v' k h;
  settings_get_visibility (cmd : string) (args : gmap string string)
      (v : V) (k : string) (h : W) :
    cmd = "show_panel" ∨ cmd = "hide_panel" →
    settings_get v k (run_command cmd args h) = settings_get v k h
}.

(** Get-or-create: a fetched panel is registered under its name, fetching a
    registered name returns the registered view, and writing a setting does
    not change the registry. *)
Class PanelLaws (W V : Type) `{HostWindow W V} : Prop := {
  find_after_fetch (n : string) (h : W) :
    find_output_panel n (get_output_panel n h).2
    = Some (get_output_panel n h).1;
  fetch_registered (n : string) (v : V) (h : W) :
    find_output_panel n h = Some v → (get_output_panel n h).1 = v;
  find_settings_set (n : string) (v : V) (k x : string) (h : W) :
    find_output_panel n (settings_set v k x h) = find_output_panel n h
}.

(** The buffer primitives: append at the end, erase everything. *)
Class BufferLaws (W V : Type) `{HostWindow W V} : Prop := {
  buffer_content_append (v : V) (t : string) (h : W) :
    buffer_content v (buffer_append v t h) = buffer_content v h +:+ t;
  buffer_content_erase (v : V) (h : W) :
    buffer_content v (buffer_erase v h) = ""
}.

(** What the methods run against: the window and the calls made so far,
    oldest first. *)
Record World (W V : Type) : Type := MkWorld {
  host : W;
  calls : list (HostCall V)
}.

Arguments MkWorld {W V} host calls.
Arguments host {W V} _.
Arguments calls {W V} _.

(** The instance attributes of an [OutputPanel].  [self.window] is the
    [World] the methods are run in.  [file_regex] and [line_regex] are
    [None] while the attribute has not been assigned ([hasattr] is false). *)
Record OutputPanel (V : Type) : Type := MkOutputPanel {
  panel_name : string;
  view : V;
  file_regex : option string;
  line_regex : option string
}.

Arguments MkOutputPanel {V} panel_name view file_regex line_regex.
Arguments panel_name {V} _.
Arguments view {V} _.
Arguments file_regex {V} _.
Arguments line_regex {V} _.

(** Methods are state transformers on the world. *)
Definition M (W V A : Type) : Type := World W V → A * World W V.

#[export] Instance M_ret {W V} : MRet (M W V) := λ A a w, (a, w).
#[export] Instance M_bind {W V} : MBind (M W V) := λ A B f m w,
  let '(a, w') := m w in f a w'.

(** The one-character string ["\n"]. *)
Definition LF : string := String "010" "".

(** ** The wrapper *)

Section OutputPanel.

Context {W V : Type} `{HostWindow W V}.

#[local] Abbreviation M := (M W V).
#[local] Abbreviation OutputPanel := (OutputPanel V).

(** Make one host call: log it and apply its effect on the window. *)
Definition perform (c : HostCall V) (f : W → W) : M unit :=
  λ w, (tt, MkWorld (f (host w)) (calls w ++ [c])).

(** [window.get_output_panel(name)] *)
Definition window_get_output_panel (name : string) : M V :=
  λ w, let r := get_output_panel name (host w) in
       (r.1, MkWorld r.2 (calls w ++ [CallGetOutputPanel name])).

(** [view.settings().set(key, value)] *)
Definition view_settings_set (v : V) (key value : string) : M unit :=
  perform (CallSettingsSet v key value) (settings_set v key value).

(** [window.run_command(cmd, args)] *)
Definition window_run_command (cmd : string) (args : gmap string string)
  : M unit :=
  perform (CallRunCommand cmd args) (run_command cmd args).

(** Modelled from the spec: [append] of the module [_view]
    (Lib/sublime_lib/view/_view.py, imported at output_view.py:1; its source
    is not at hand): it "appends text to the panel's underlying buffer
    without inserting a trailing newline", through the host's append
    primitive. *)
Definition view_append (v : V) (text : string) : M unit :=
  perform (CallAppend v text) (buffer_append v text).

(** Modelled from the spec: [clear] of the module [_view], missing like
    [append]: it "erases all panel content", through the host's clear
    primitive. *)
Definition view_clear (v : V) : M unit :=
  perform (CallErase v) (buffer_erase v).

(** [OutputPanel.set_regex] (output_view.py:92-106).  An argument is [None]
    when omitted or passed as [None]. *)
Definition set_regex (self : OutputPanel) (file_regex_arg line_regex_arg : option string)
  : M OutputPanel :=
  (* if file_regex is not None: self.file_regex = file_regex *)
  let self := match file_regex_arg with
              | Some r => MkOutputPanel (panel_name self) (view self) (Some r) (line_regex self)
              | None => self
              end in
  (* if hasattr(self, 'file_regex'): settings.set('result_file_regex', ...) *)
  _ ← match file_regex self with
      | Some r => view_settings_set (view self) "result_file_regex" r
      | None => mret tt
      end;
  (* if line_regex is not None: self.line_regex = line_regex *)
  let self := match line_regex_arg with
              | Some r => MkOutputPanel (panel_name self) (view self) (file_regex self) (Some r)
              | None => self
              end in
  (* if hasattr(self, 'line_regex'): settings.set('result_line_regex', ...) *)
  _ ← match line_regex self with
      | Some r => view_settings_set (view self) "result_line_regex" r
      | None => mret tt
      end;
  (* self.window.get_output_panel(self.panel_name); the view is dropped *)
  _ ← window_get_output_panel (panel_name self);
  mret self.

(** [OutputPanel.set_path] (output_view.py:83-90). *)
Definition set_path (self : OutputPanel) (path_arg file_regex_arg line_regex_arg : option string)
  : M OutputPanel :=
  _ ← match path_arg with
      | Some p => view_settings_set (view self) "result_base_dir" p
      | None => mret tt
      end;
  set_regex self file_regex_arg line_regex_arg.

(** [OutputPanel.__init__] (output_view.py:76-81); the argument order is
    the constructor's. *)
Definition __init__ (panel_name_arg : string)
    (file_regex_arg line_regex_arg path_arg : option string) : M OutputPanel :=
  v ← window_get_output_panel panel_name_arg;
  set_path (MkOutputPanel panel_name_arg v None None)
           path_arg file_regex_arg line_regex_arg.

(** [OutputPanel.write] (output_view.py:108-112). *)
Definition write (self : OutputPanel) (text : string) : M unit :=
  view_append (view self) text.

(** [OutputPanel.write_line] (output_view.py:114-117). *)
Definition write_line (self : OutputPanel) (text : string) : M unit :=
  write self (text +:+ LF).

(** [OutputPanel.clear] (output_view.py:119-123). *)
Definition clear (self : OutputPanel) : M unit :=
  view_clear (view self).

(** ["output.%s" % self.panel_name] *)
Definition output_name (self : OutputPanel) : string :=
  "output." +:+ panel_name self.

(** [OutputPanel.show] (output_view.py:125-128). *)
Definition show (self : OutputPanel) : M unit :=
  window_run_command "show_panel" {[ "panel" := output_name self ]}.

(** [OutputPanel.hide] (output_view.py:130-133). *)
Definition hide (self : OutputPanel) : M unit :=
  window_run_command "hide_panel" {[ "panel" := output_name self ]}.

End OutputPanel.

(** Spec-level vocabulary for the wrapper's effects. *)
Section Effects.

Context {W V : Type} `{HostWindow W V}.

#[local] Abbreviation M := (M W V).
#[local] Abbreviation World := (World W V).
#[local] Abbreviation OutputPanel := (OutputPanel V).

(** The calls made on the way from [w] to [w']. *)
Definition calls_since (w w' : World) : list (HostCall V) :=
  drop (length (calls w)) (calls w').

(** The settings write a setter makes for one key, if any. *)
Definition settings_write (v : V) (key : string) (o : option string)
  : list (HostCall V) :=
  match o with
  | Some r => [CallSettingsSet v key r]
  | None => []
  end.

(** Its effect on the host. *)
Definition apply_write (v : V) (key : string) (o : option string) (h : W) : W :=
  match o with
  | Some r => settings_set v key r h
  | None => h
  end.

(** The keys of the settings writes in a list of calls. *)
Definition written_keys (cs : list (HostCall V)) : list string :=
  flat_map (λ c, match c with
                 | CallSettingsSet _ k _ => [k]
                 | _ => []
                 end) cs.

Definition is_fetch (c : HostCall V) : bool :=
  match c with
  | CallGetOutputPanel _ => true
  | _ => false
  end.

(** The value an argument leaves stored: the argument when supplied, the
    stored value otherwise. *)
Definition supplied (stored arg : option string) : option string :=
  match arg with
  | Some r => Some r
  | None => stored
  end.

(** The last supplied value of a sequence of arguments, starting from what
    was stored before. *)
Definition last_supplied (stored : option string) (args : list (option string))
  : option string :=
  foldl supplied stored args.

(** A method call on a panel, and sequences of them. *)
Inductive Method : Type :=
| CallSetPath (path_arg file_regex_arg line_regex_arg : option string)
| CallSetRegex (file_regex_arg line_regex_arg : option string)
| CallWrite (text : string)
| CallWriteLine (text : string)
| CallClear
| CallShow
| CallHide.

Definition invoke (self : OutputPanel) (m : Method) : M OutputPanel :=
  match m with
  | CallSetPath p f l => set_path self p f l
  | CallSetRegex f l => set_regex self f l
  | CallWrite t => _ ← write self t; mret self
  | CallWriteLine t => _ ← write_line self t; mret self
  | CallClear => _ ← clear self; mret self
  | CallShow => _ ← show self; mret self
  | CallHide => _ ← hide self; mret self
  end.

Fixpoint invoke_all (self : OutputPanel) (ms : list Method) : M OutputPanel :=
  match ms with
  | [] => mret self
  | m :: ms => self' ← invoke self m; invoke_all self' ms
  end.

Definition is_setter (m : Method) : bool :=
  match m with
  | CallSetPath _ _ _ | CallSetRegex _ _ => true
  | _ => false
  end.

Definition is_writer (m : Method) : bool :=
  match m with
  | CallWrite _ | CallWriteLine _ => true
  | _ => false
  end.

(** The text a call to [write] or [write_line] sends to the buffer, and the
    text a sequence of calls sends. *)
Definition text_of (m : Method) : string :=
  match m with
  | CallWrite t => t
  | CallWriteLine t => t +:+ LF
  | _ => ""
  end.

Definition written_text (ms : list Method) : string :=
  foldr (λ m rest, text_of m +:+ rest) "" ms.

(** The [file_regex] and [line_regex] arguments of a call; a call that has
    no such argument supplies nothing. *)
Definition file_regex_of (m : Method) : option string :=
  match m with
  | CallSetPath _ f _ | CallSetRegex f _ => f
  | _ => None
  end.

Definition line_regex_of (m : Method) : option string :=
  match m with
  | CallSetPath _ _ l | CallSetRegex _ l => l
  | _ => None
  end.

(** The [path] argument of a call; only [set_path] has one. *)
Definition path_of (m : Method) : option string :=
  match m with
  | CallSetPath p _ _ => p
  | _ => None
  end.

(** The view a host call is addressed to, for the calls made on a view. *)
Definition call_view (c : HostCall V) : option V :=
  match c with
  | CallSettingsSet v _ _ | CallAppend v _ | CallErase v => Some v
  | CallGetOutputPanel _ | CallRunCommand _ _ => None
  end.

End Effects.

(** The three settings keys of the jump-to-result feature. *)
Definition result_keys : list string :=
  ["result_base_dir"; "result_file_regex"; "result_line_regex"].

(** ** A reference host

    A small executable window: panels are registered by name, a view handle
    is a number, every view has a settings dictionary and a buffer, and at
    most one panel is shown.  It serves to run the wrapper on concrete
    inputs. *)

Record RefView : Type := MkRefView {
  rv_settings : gmap string string;
  rv_buffer : string
}.

Record RefHost : Type := MkRefHost {
  rh_panels : gmap string nat;
  rh_views : gmap nat RefView;
  rh_next : nat;
  rh_shown : option string
}.

Definition ref_empty : RefHost := MkRefHost ∅ ∅ 0 None.

Definition ref_view (v : nat) (h : RefHost) : RefView :=
  default (MkRefView ∅ "") (rh_views h !! v).

Definition ref_update (v : nat) (f : RefView → RefView) (h : RefHost) : RefHost :=
  MkRefHost (rh_panels h) (<[v := f (ref_view v h)]> (rh_views h))
            (rh_next h) (rh_shown h).

Definition ref_get_output_panel (n : string) (h : RefHost) : nat * RefHost :=
  match rh_panels h !! n with
  | Some v => (v, h)
  | None => (rh_next h,
             MkRefHost (<[n := rh_next h]> (rh_panels h)) (rh_views h)
                       (S (rh_next h)) (rh_shown h))
  end.

Definition ref_run_command (cmd : string) (args : gmap string string)
    (h : RefHost) : RefHost :=
  if decide (cmd = "show_panel") then
    MkRefHost (rh_panels h) (rh_views h) (rh_next h) (args !! "panel")
  else if decide (cmd = "hide_panel") then
    MkRefHost (rh_panels h) (rh_views h) (rh_next h) None
  else h.

#[export] Instance ref_host : HostWindow RefHost nat := {
  get_output_panel := ref_get_output_panel;
  find_output_panel n h := rh_panels h !! n;
  settings_set v k x :=
    ref_update v (λ r, MkRefView (<[k := x]> (rv_settings r)) (rv_buffer r));
  settings_get v k h := rv_settings (ref_view v h) !! k;
  buffer_append v t :=
    ref_update v (λ r, MkRefView (rv_settings r) (rv_buffer r +:+ t));
  buffer_erase v := ref_update v (λ r, MkRefView (rv_settings r) "");
  buffer_content v h := rv_buffer (ref_view v h);
  run_command := ref_run_command
}.

(** The reference window before any call. *)
Definition ref_world : World RefHost nat := MkWorld ref_empty [].

(** ** A host that clears settings on fetch

    The same window with one difference: fetching a panel empties the
    settings of the view fetched, as in "the host clears settings when a
    panel is freshly fetched".  Panels are still got or created by name and
    the settings are still a key/value store. *)

Record ClearingHost : Type := MkClearingHost {
  ch_host : RefHost
}.

Definition clearing_get_output_panel (n : string) (h : ClearingHost)
  : nat * ClearingHost :=
  let r := ref_get_output_panel n (ch_host h) in
  (r.1, MkClearingHost
          (ref_update r.1 (λ rv, MkRefView ∅ (rv_buffer rv)) r.2)).

#[export] Instance clearing_host : HostWindow ClearingHost nat := {
  get_output_panel := clearing_get_output_panel;
  find_output_panel n h := find_output_panel n (ch_host h);
  settings_set v k x h := MkClearingHost (settings_set v k x (ch_host h));
  settings_get v k h := settings_get v k (ch_host h);
  buffer_append v t h := MkClearingHost (buffer_append v t (ch_host h));
  buffer_erase v h := MkClearingHost (buffer_erase v (ch_host h));
  buffer_content v h := buffer_content v (ch_host h);
  run_command cmd args h := MkClearingHost (run_command cmd args (ch_host h))
}.

(** The clearing window before any call. *)
Definition clearing_world : World ClearingHost nat :=
  MkWorld (MkClearingHost ref_empty) [].

(** ** The scope taxonomy table *)

(** [DATA] (scope_data/data.py:3-198), character for character. *)
Definition DATA : string := "
    comment
        line
            double-slash
            double-dash
            number-sign
            percentage
        block
            documentation

    constant
        numeric
            integer
            float
            hex
            octal
            complex
        character
            escape
        language
        other
            placeholder

    entity
        name
            class
                forward-decl
            struct
            enum
            union
            trait
            interface
            type
            function
                constructor
                destructor
            namespace
            constant
            label
            section
            tag
        other
            inherited-class
            attribute-name

    invalid
        illegal
        deprecated

    keyword
        control
            conditional
            import
        operator
            assignment
            arithmetic
            bitwise
            logical
            word
        other

    markup
        heading
        list
            numbered
            unnumbered
        bold
        italic
        underline
            link
        inserted
        deleted
        quote
        raw
            inline
            block
        other

    meta
        class
        struct
        enum
        union
        trait
        interface
        type
        function
            parameters
            return-type
        namespace
        preprocessor
        path
        function-call
        block
        braces
        group
        parens
        brackets
        generic
        tag
        paragraph
        toc-list
        sequence
        mapping
            key
            value
        annotation
        set

    punctuation
        definition
            string
                begin
                end
            comment
                begin
                end
            keyword
            generic
                begin
                end
            placeholder
                begin
                end
        section
            block
                begin
                end
            braces
                begin
                end
            group
                begin
                end
            parens
                begin
                end
            brackets
                begin
                end
            sequence
                begin
                end
            mapping
                begin
                end
            set
                begin
                end
        separator
            sequence
            mapping
                key-value
                pair
            decimal
        terminator
        accessor
            arrow
            dot
            double-colon
            fat-arrow
            colon
            backslash

    storage
        type
        modifier

    string
        quoted
            single
            double
            triple
            other
        unquoted
        regexp
        interpolated
        other

    support
        constant
        function
        module
        type
        class
        other

    variable
        language
        parameter
        function
        annotation
        other
            constant
            member
".

(** The tree the table describes: a label and the nodes nested under it. *)
#[warnings="-register-all"] Inductive ScopeNode : Type :=
| Node (label : string) (children : list ScopeNode).

(** Modelled from the spec: the reader of [DATA] (it lives outside
    scope_data/data.py and its source is not at hand).  The spec has the table
    "parsed by indentation into a tree and flattened to dot-joined
    root-to-leaf paths": split into lines, drop blank lines, a line's label
    is its text without the leading spaces, and its parent is the nearest
    line above with a smaller indentation. *)
Fixpoint lines_go (cur s : string) : list string :=
  match s with
  | "" => [String.rev cur]
  | String a s' =>
      if Ascii.eqb a "010"%char then String.rev cur :: lines_go "" s'
      else lines_go (String a cur) s'
  end.

Definition lines (s : string) : list string := lines_go "" s.

Fixpoint indent_of (s : string) : nat :=
  match s with
  | String a s' => if Ascii.eqb a " "%char then S (indent_of s') else 0
  | "" => 0
  end.

Fixpoint lstrip (s : string) : string :=
  match s with
  | String a s' => if Ascii.eqb a " "%char then lstrip s' else s
  | "" => ""
  end.

(** Indentation and label of every non-blank line. *)
Definition entries (s : string) : list (nat * string) :=
  omap (λ l, let lbl := lstrip l in
             if decide (lbl = "") then None else Some (indent_of l, lbl))
       (lines s).

(** The indentations of the open ancestors, innermost first, once the lines
    that are not less indented than [i] are closed. *)
Fixpoint close_to (i : nat) (open : list nat) : list nat :=
  match open with
  | top :: rest => if decide (i ≤ top)%nat then close_to i rest else open
  | [] => []
  end.

(** Put a node [depth] levels below the most recent root; forests are kept
    newest first while the tree is built. *)
Fixpoint add_node (depth : nat) (lbl : string) (forest : list ScopeNode)
  : list ScopeNode :=
  match depth with
  | 0 => Node lbl [] :: forest
  | S d =>
      match forest with
      | Node l cs :: rest => Node l (add_node d lbl cs) :: rest
      | [] => [Node lbl []]
      end
  end.

Fixpoint build (es : list (nat * string)) (open : list nat)
    (forest : list ScopeNode) : list ScopeNode :=
  match es with
  | [] => forest
  | (i, lbl) :: es =>
      let open' := close_to i open in
      build es (i :: open') (add_node (length open') lbl forest)
  end.

Fixpoint in_order (n : ScopeNode) : ScopeNode :=
  match n with
  | Node l cs => Node l (rev (map in_order cs))
  end.

(** Modelled from the spec: the table "parsed by indentation into a tree";
    [lines], [entries], [close_to], [add_node], [build] and [in_order] are
    its steps. *)
Definition parse (s : string) : list ScopeNode :=
  rev (map in_order (build (entries s) [] [])).

(** Every node with the labels from its root down to it. *)
Fixpoint node_paths (above : list string) (n : ScopeNode) : list (list string) :=
  match n with
  | Node l cs =>
      (above ++ [l]) :: flat_map (node_paths (above ++ [l])) cs
  end.

(** The root-to-leaf paths only. *)
Fixpoint leaf_paths (above : list string) (n : ScopeNode) : list (list string) :=
  match n with
  | Node l [] => [above ++ [l]]
  | Node l cs => flat_map (leaf_paths (above ++ [l])) cs
  end.

Fixpoint labels (n : ScopeNode) : list string :=
  match n with
  | Node l cs => l :: flat_map labels cs
  end.

(** [".".join(path)] *)
Fixpoint dotted (path : list string) : string :=
  match path with
  | [] => ""
  | [l] => l
  | l :: rest => l +:+ "." +:+ dotted rest
  end.

Definition scope_tree : list ScopeNode := parse DATA.

(** Modelled from the spec: the tree "flattened to dot-joined" paths, one
    for every node. *)
Definition all_scopes : list string :=
  dotted <$> flat_map (node_paths []) scope_tree.

(** Modelled from the spec: the "dot-joined root-to-leaf paths". *)
Definition leaf_scopes : list string :=
  dotted <$> flat_map (leaf_paths []) scope_tree.

Definition is_lower (a : ascii) : bool :=
  let n := Ascii.nat_of_ascii a in ((97 <=? n) && (n <=? 122))%nat.

(** Non-empty runs of [a-z] separated by single hyphens.  [inside] tells
    whether the character before was a letter. *)
Fixpoint hyphenated_from (inside : bool) (s : string) : bool :=
  match s with
  | "" => inside
  | String a s' =>
      if is_lower a then hyphenated_from true s'
      else if Ascii.eqb a "-"%char then inside && hyphenated_from false s'
      else false
  end.

Definition hyphenated_lowercase (s : string) : bool := hyphenated_from false s.

(** Only the characters [a-z] and [-]. *)
Fixpoint lower_or_hyphen (s : string) : bool :=
  match s with
  | "" => true
  | String a s' => (is_lower a || Ascii.eqb a "-"%char) && lower_or_hyphen s'
  end.

(** * Properties *)

(** ** What each method does, call by call *)

Section Runs.

Context {W V : Type} `{HostWindow W V}.

#[local] Abbreviation World := (World W V).
#[local] Abbreviation OutputPanel := (OutputPanel V).

Implicit Types (self : OutputPanel) (w : World) (v : V).
Implicit Types (f l p : option string) (n key : string).

(** Unfold the monad and the primitives down to pairs. *)
Ltac run :=
  unfold __init__, set_path, set_regex, write_line, write, clear, show, hide,
    view_append, view_clear, view_settings_set, window_run_command,
    window_get_output_panel, perform, mbind, M_bind, mret, M_ret;
  cbn.

(** [set_regex] stores what was supplied, writes each regex that is stored
    afterwards, and fetches the panel last. *)
Lemma set_regex_run self f l w :
  let a := supplied (file_regex self) f in
  let b := supplied (line_regex self) l in
  let v := view self in
  let h := apply_write v "result_line_regex" b
             (apply_write v "result_file_regex" a (host w)) in
  set_regex self f l w
  = (MkOutputPanel (panel_name self) v a b,
     MkWorld (get_output_panel (panel_name self) h).2
             (calls w ++ settings_write v "result_file_regex" a
                      ++ settings_write v "result_line_regex" b
                      ++ [CallGetOutputPanel (panel_name self)])).
Proof.
  destruct self as [n v [a|] [b|]], f as [f|], l as [l|]; run;
    rewrite <- ?app_assoc; reflexivity.
Qed.

Lemma set_path_run self p f l w :
  set_path self p f l w
  = set_regex self f l
      (MkWorld (apply_write (view self) "result_base_dir" p (host w))
               (calls w ++ settings_write (view self) "result_base_dir" p)).
Proof.
  destruct p as [p|]; unfold set_path, mbind, M_bind; cbn; [reflexivity|].
  rewrite app_nil_r. destruct w; reflexivity.
Qed.

Lemma init_run n f l p w :
  __init__ n f l p w
  = set_path (MkOutputPanel n (get_output_panel n (host w)).1 None None) p f l
      (MkWorld (get_output_panel n (host w)).2
               (calls w ++ [CallGetOutputPanel n])).
Proof. reflexivity. Qed.

Lemma calls_since_app w w' (cs : list (HostCall V)) :
  calls w' = calls w ++ cs → calls_since w w' = cs.
Proof. unfold calls_since. intros ->. apply drop_app_length. Qed.

Lemma set_regex_calls self f l w :
  calls (set_regex self f l w).2
  = calls w
    ++ settings_write (view self) "result_file_regex" (supplied (file_regex self) f)
    ++ settings_write (view self) "result_line_regex" (supplied (line_regex self) l)
    ++ [CallGetOutputPanel (panel_name self)].
Proof. rewrite set_regex_run. reflexivity. Qed.

Lemma set_path_calls self p f l w :
  calls (set_path self p f l w).2
  = calls w
    ++ settings_write (view self) "result_base_dir" p
    ++ settings_write (view self) "result_file_regex" (supplied (file_regex self) f)
    ++ settings_write (view self) "result_line_regex" (supplied (line_regex self) l)
    ++ [CallGetOutputPanel (panel_name self)].
Proof.
  rewrite set_path_run, set_regex_calls. cbn. rewrite <- app_assoc. reflexivity.
Qed.

Lemma init_calls n f l p w :
  calls (__init__ n f l p w).2
  = calls w
    ++ [CallGetOutputPanel n]
    ++ settings_write (get_output_panel n (host w)).1 "result_base_dir" p
    ++ settings_write (get_output_panel n (host w)).1 "result_file_regex" f
    ++ settings_write (get_output_panel n (host w)).1 "result_line_regex" l
    ++ [CallGetOutputPanel n].
Proof.
  rewrite init_run, set_path_calls. cbn. rewrite <- app_assoc.
  destruct f, l; reflexivity.
Qed.

Lemma set_regex_as_set_path self f l w :
  set_regex self f l w = set_path self None f l w.
Proof. rewrite set_path_run. cbn. rewrite app_nil_r. destruct w; reflexivity. Qed.

Lemma set_path_attrs self p f l w :
  (set_path self p f l w).1
  = MkOutputPanel (panel_name self) (view self)
      (supplied (file_regex self) f) (supplied (line_regex self) l).
Proof. rewrite set_path_run, set_regex_run. reflexivity. Qed.

Lemma invoke_all_cons self (m : Method) (ms : list Method) w :
  invoke_all self (m :: ms) w
  = invoke_all (invoke self m w).1 ms (invoke self m w).2.
Proof. cbn. unfold mbind, M_bind. destruct (invoke self m w). reflexivity. Qed.

Lemma invoke_setter self (m : Method) w :
  is_setter m →
  ∃ p, invoke self m w = set_path self p (file_regex_of m) (line_regex_of m) w.
Proof.
  destruct m; cbn; try contradiction; intros _.
  - eexists. reflexivity.
  - exists None. apply set_regex_as_set_path.
Qed.


(** C10: construction calls [get_output_panel] with the panel's name exactly
    twice, first in the constructor itself and last at the end of
    [set_regex]; the calls in between are the settings writes for the
    arguments that were given.  With [file_regex], [line_regex] and [path]
    all omitted, the two fetches are the only calls, no settings key is
    written, and neither regex attribute is stored. *)
Theorem init_fetches_twice n f l p w :
  let v := (get_output_panel n (host w)).1 in
  calls_since w (__init__ n f l p w).2
  = [CallGetOutputPanel n]
    ++ settings_write v "result_base_dir" p
    ++ settings_write v "result_file_regex" f
    ++ settings_write v "result_line_regex" l
    ++ [CallGetOutputPanel n]
  ∧ filter (λ c, is_fetch c) (calls_since w (__init__ n f l p w).2)
    = [CallGetOutputPanel n; CallGetOutputPanel n]
  ∧ __init__ n None None None w
    = (MkOutputPanel n v None None,
       MkWorld (get_output_panel n (get_output_panel n (host w)).2).2
               (calls w ++ [CallGetOutputPanel n; CallGetOutputPanel n]))
  ∧ written_keys (calls_since w (__init__ n None None None w).2) = [].
Proof.
  intros v.
  assert (Hcalls : calls_since w (__init__ n f l p w).2
    = [CallGetOutputPanel n]
      ++ settings_write v "result_base_dir" p
      ++ settings_write v "result_file_regex" f
      ++ settings_write v "result_line_regex" l
      ++ [CallGetOutputPanel n]).
  { apply calls_since_app, init_calls. }
  split; [exact Hcalls|]. split.
  - rewrite Hcalls. destruct p, f, l; reflexivity.
  - split.
    + run. rewrite <- app_assoc. reflexivity.
    + erewrite calls_since_app; [|apply init_calls]. reflexivity.
Qed.

(** C7: [show] and [hide] each make one host call, the window command
    [show_panel] or [hide_panel] with the argument [panel] set to
    ["output."] followed by the panel's name; the world afterwards is what
    that one command leaves, and the panel's attributes are as before. *)
Theorem show_hide_dispatch self w :
  let args : gmap string string := {[ "panel" := "output." +:+ panel_name self ]} in
  show self w
  = (tt, MkWorld (run_command "show_panel" args (host w))
                 (calls w ++ [CallRunCommand "show_panel" args]))
  ∧ hide self w
    = (tt, MkWorld (run_command "hide_panel" args (host w))
                   (calls w ++ [CallRunCommand "hide_panel" args]))
  ∧ (invoke self CallShow w).1 = self
  ∧ (invoke self CallHide w).1 = self.
Proof. repeat split. Qed.

End Runs.

(** ** The settings the setters leave *)

Section Settings.

Context {W V : Type} `{HostWindow W V} `{!SettingsLaws W V}.

#[local] Abbreviation World := (World W V).
#[local] Abbreviation OutputPanel := (OutputPanel V).

Implicit Types (self : OutputPanel) (w : World) (v : V) (h : W).
Implicit Types (f l p o : option string) (n k : string).

Lemma apply_write_same v k o h :
  settings_get v k (apply_write v k o h) = supplied (settings_get v k h) o.
Proof. destruct o; cbn; [apply settings_get_set_eq | reflexivity]. Qed.

Lemma apply_write_other v v' k k' o h :
  (v, k) ≠ (v', k') →
  settings_get v' k' (apply_write v k o h) = settings_get v' k' h.
Proof. destruct o; cbn; [apply settings_get_set_ne | reflexivity]. Qed.

(** The three keys after a [set_path], in terms of what they held before. *)
Lemma set_path_settings self p f l w :
  let v := view self in
  let h' := host (set_path self p f l w).2 in
  settings_get v "result_base_dir" h'
  = supplied (settings_get v "result_base_dir" (host w)) p
  ∧ settings_get v "result_file_regex" h'
    = supplied (settings_get v "result_file_regex" (host w))
               (supplied (file_regex self) f)
  ∧ settings_get v "result_line_regex" h'
    = supplied (settings_get v "result_line_regex" (host w))
               (supplied (line_regex self) l).
Proof.
  intros v h'. subst h'. rewrite set_path_run, set_regex_run. cbn.
  rewrite !settings_get_fetch. fold v. repeat split.
  - rewrite !apply_write_other by (intros [=]). apply apply_write_same.
  - rewrite apply_write_other by (intros [=]). rewrite apply_write_same.
    rewrite apply_write_other by (intros [=]). reflexivity.
  - rewrite apply_write_same. rewrite !apply_write_other by (intros [=]).
    reflexivity.
Qed.

(** Every other key of every view is as before. *)
Lemma set_path_frame self p f l w v k :
  k ∉ result_keys →
  settings_get v k (host (set_path self p f l w).2) = settings_get v k (host w).
Proof.
  intros Hk. rewrite set_path_run, set_regex_run. cbn.
  rewrite settings_get_fetch.
  rewrite !apply_write_other; [reflexivity| | |];
    intros [=]; subst; apply Hk; unfold result_keys; set_solver.
Qed.

(** After a non-empty sequence of setter calls: the stored regexes are the
    last ones supplied, and the keys hold them. *)
Lemma setters_invariant self (ms : list Method) w :
  ms ≠ [] → Forall (λ m, is_setter m) ms →
  let r := invoke_all self ms w in
  let a := last_supplied (file_regex self) (file_regex_of <$> ms) in
  let b := last_supplied (line_regex self) (line_regex_of <$> ms) in
  file_regex r.1 = a
  ∧ line_regex r.1 = b
  ∧ (∀ x, a = Some x →
          settings_get (view self) "result_file_regex" (host r.2) = Some x)
  ∧ (∀ x, b = Some x →
          settings_get (view self) "result_line_regex" (host r.2) = Some x).
Proof.
  revert self w. induction ms as [|m ms IH]; intros self w Hne Hset; [done|].
  apply Forall_cons in Hset as [Hm Hms].
  destruct (invoke_setter self m w Hm) as [p Hrun].
  pose proof (set_path_attrs self p (file_regex_of m) (line_regex_of m) w) as Hattrs.
  pose proof (set_path_settings self p (file_regex_of m) (line_regex_of m) w)
    as (_ & Hfile & Hline).
  rewrite <- Hrun in Hattrs, Hfile, Hline.
  destruct ms as [|m' ms'].
  - cbn. unfold mbind, M_bind, mret, M_ret.
    replace (invoke self m w) with ((invoke self m w).1, (invoke self m w).2)
      by (destruct (invoke self m w); reflexivity).
    cbn. rewrite Hattrs. cbn. repeat split.
    + intros x Hx. rewrite Hfile, Hx. reflexivity.
    + intros x Hx. rewrite Hline, Hx. reflexivity.
  - specialize (IH (invoke self m w).1 (invoke self m w).2 ltac:(done) Hms).
    cbv zeta in IH |- *. rewrite invoke_all_cons.
    assert (Hf : file_regex (invoke self m w).1
                 = supplied (file_regex self) (file_regex_of m))
      by (rewrite Hattrs; reflexivity).
    assert (Hl : line_regex (invoke self m w).1
                 = supplied (line_regex self) (line_regex_of m))
      by (rewrite Hattrs; reflexivity).
    assert (Hv : view (invoke self m w).1 = view self)
      by (rewrite Hattrs; reflexivity).
    rewrite Hf, Hl, Hv in IH. exact IH.
Qed.

End Settings.

(** ** The keys written *)

Section Frame.

Context {W V : Type} `{HostWindow W V}.

#[local] Abbreviation World := (World W V).
#[local] Abbreviation OutputPanel := (OutputPanel V).

Implicit Types (self : OutputPanel) (w : World) (v : V) (h : W).
Implicit Types (f l p o : option string) (n k : string).



End Frame.

(** ** Construction: get-or-create *)

Section Panels.

Context {W V : Type} `{HostWindow W V} `{!PanelLaws W V}.

#[local] Abbreviation World := (World W V).
#[local] Abbreviation OutputPanel := (OutputPanel V).

Implicit Types (self : OutputPanel) (w : World) (v : V) (h : W).
Implicit Types (f l p o : option string) (n k : string).

Lemma find_apply_write n v k o h :
  find_output_panel n (apply_write v k o h) = find_output_panel n h.
Proof. destruct o; cbn; [apply find_settings_set | reflexivity]. Qed.

(** A setter keeps the panel registered under its name. *)
Lemma set_path_registered self p f l w v :
  find_output_panel (panel_name self) (host w) = Some v →
  find_output_panel (panel_name self) (host (set_path self p f l w).2) = Some v.
Proof.
  intros Hv. rewrite set_path_run, set_regex_run. cbn.
  rewrite find_after_fetch. f_equal. apply fetch_registered.
  rewrite !find_apply_write. exact Hv.
Qed.

Lemma init_view n f l p w :
  view (__init__ n f l p w).1 = (get_output_panel n (host w)).1.
Proof. rewrite init_run, set_path_attrs. reflexivity. Qed.

(** After construction the panel is registered under its name. *)
Lemma init_registered n f l p w :
  find_output_panel n (host (__init__ n f l p w).2)
  = Some (view (__init__ n f l p w).1).
Proof.
  rewrite init_view, init_run.
  apply (set_path_registered
           (MkOutputPanel n (get_output_panel n (host w)).1 None None)).
  cbn. apply find_after_fetch.
Qed.

(** C6: construction fetches the named panel from the window first and
    keeps the view it is given; it then stores and writes exactly the
    settings whose arguments were provided, and fetches once more.  It
    returns in every world; when a panel of that name is already registered
    the view is that panel's, and a second construction with the same name,
    whatever its other arguments, gets the view of the first. *)
Theorem construct_get_or_create n f l p f' l' p' w :
  let r := __init__ n f l p w in
  let r' := __init__ n f' l' p' r.2 in
  let v := (get_output_panel n (host w)).1 in
  r.1 = MkOutputPanel n v f l
  ∧ calls_since w r.2
    = [CallGetOutputPanel n]
      ++ settings_write v "result_base_dir" p
      ++ settings_write v "result_file_regex" f
      ++ settings_write v "result_line_regex" l
      ++ [CallGetOutputPanel n]
  ∧ (∀ v0, find_output_panel n (host w) = Some v0 → view r.1 = v0)
  ∧ find_output_panel n (host r.2) = Some (view r.1)
  ∧ view r'.1 = view r.1.
Proof.
  intros r r' v. subst r r'. split; [|split; [|split; [|split]]].
  - rewrite init_run, set_path_attrs. destruct f, l; reflexivity.
  - apply calls_since_app, init_calls.
  - intros v0 Hv0. rewrite init_view. apply fetch_registered, Hv0.
  - apply init_registered.
  - rewrite (init_view n f' l' p'). apply fetch_registered, init_registered.
Qed.

End Panels.

(** ** The buffer *)

Lemma append_assoc (s1 s2 s3 : string) : (s1 +:+ s2) +:+ s3 = s1 +:+ s2 +:+ s3.
Proof.
  induction s1 as [|a s1 IH]; [reflexivity|].
  change (String a ((s1 +:+ s2) +:+ s3) = String a (s1 +:+ s2 +:+ s3)).
  by rewrite IH.
Qed.

Lemma append_empty_r (s : string) : s +:+ "" = s.
Proof.
  induction s as [|a s IH]; [reflexivity|].
  change (String a (s +:+ "") = String a s). by rewrite IH.
Qed.

Section Buffer.

Context {W V : Type} `{HostWindow W V} `{!BufferLaws W V}.

#[local] Abbreviation World := (World W V).
#[local] Abbreviation OutputPanel := (OutputPanel V).

Implicit Types (self : OutputPanel) (w : World) (v : V) (h : W).
Implicit Types (t a b : string).

Lemma write_buffer self t w :
  buffer_content (view self) (host (write self t w).2)
  = buffer_content (view self) (host w) +:+ t.
Proof. apply buffer_content_append. Qed.

Lemma write_line_buffer self t w :
  buffer_content (view self) (host (write_line self t w).2)
  = buffer_content (view self) (host w) +:+ t +:+ LF.
Proof. apply buffer_content_append. Qed.

Lemma invoke_writer self (m : Method) w :
  is_writer m →
  (invoke self m w).1 = self
  ∧ buffer_content (view self) (host (invoke self m w).2)
    = buffer_content (view self) (host w) +:+ text_of m.
Proof.
  destruct m; cbn; try contradiction; intros _; split; try reflexivity;
    apply buffer_content_append.
Qed.

Lemma invoke_all_writers self (ms : list Method) w :
  Forall (λ m, is_writer m) ms →
  (invoke_all self ms w).1 = self
  ∧ buffer_content (view self) (host (invoke_all self ms w).2)
    = buffer_content (view self) (host w) +:+ written_text ms.
Proof.
  revert w. induction ms as [|m ms IH]; intros w Hms.
  - cbn. rewrite append_empty_r. split; reflexivity.
  - apply Forall_cons in Hms as [Hm Hms].
    destruct (invoke_writer self m w Hm) as [Hself Hbuf].
    rewrite invoke_all_cons, Hself.
    destruct (IH (invoke self m w).2 Hms) as [IHself IHbuf].
    split; [exact IHself|].
    rewrite IHbuf, Hbuf. cbn. apply append_assoc.
Qed.

(** C3: [write text] extends the panel's buffer by exactly [text], and
    [write_line text] by [text] followed by one newline, whatever the buffer
    held; so writing "a" then "b" extends it by "ab", and writing the lines
    "a" then "b" extends it by "a", newline, "b", newline. *)
Theorem write_appends_text self t w :
  let content w := buffer_content (view self) (host w) in
  content (write self t w).2 = content w +:+ t
  ∧ content (write_line self t w).2 = content w +:+ t +:+ LF
  ∧ content (write self "b" (write self "a" w).2).2 = content w +:+ "ab"
  ∧ content (write_line self "b" (write_line self "a" w).2).2
    = content w +:+ "a" +:+ LF +:+ "b" +:+ LF.
Proof.
  intros content. subst content. cbv beta.
  rewrite !write_line_buffer, !write_buffer, !append_assoc.
  repeat split.
Qed.

(** C4: after any sequence of [write] and [write_line] calls the buffer
    holds what it held before followed by the texts written, and one
    [clear] then leaves it empty; [clear] empties the buffer after any other
    sequence of calls as well. *)
Theorem clear_empties_buffer self (ms : list Method) w :
  let r := invoke_all self ms w in
  (Forall (λ m, is_writer m) ms →
   r.1 = self
   ∧ buffer_content (view self) (host r.2)
     = buffer_content (view self) (host w) +:+ written_text ms)
  ∧ buffer_content (view r.1) (host (clear r.1 r.2).2) = "".
Proof.
  intros r. split.
  - apply invoke_all_writers.
  - apply buffer_content_erase.
Qed.

End Buffer.

(** ** The reference host obeys the laws *)

Lemma ref_view_update (v v' : nat) (f : RefView → RefView) (h : RefHost) :
  ref_view v' (ref_update v f h)
  = if decide (v = v') then f (ref_view v h) else ref_view v' h.
Proof.
  unfold ref_view at 1. cbn. rewrite lookup_insert.
  destruct (decide (v = v')); reflexivity.
Qed.

Lemma ref_view_fetch (n : string) (v : nat) (h : RefHost) :
  ref_view v (ref_get_output_panel n h).2 = ref_view v h.
Proof. unfold ref_get_output_panel. destruct (rh_panels h !! n); reflexivity. Qed.

#[export] Instance ref_settings_laws : SettingsLaws RefHost nat.
Proof.
  split; cbn.
  - intros v k x h. rewrite ref_view_update, decide_True by reflexivity.
    cbn. apply lookup_insert_eq.
  - intros v v' k k' x h Hne. rewrite ref_view_update.
    destruct (decide (v = v')) as [->|]; [|reflexivity].
    cbn. apply lookup_insert_ne. congruence.
  - intros n v k h. rewrite ref_view_fetch. reflexivity.
Qed.

#[export] Instance ref_settings_frame_laws : SettingsFrameLaws RefHost nat.
Proof.
  split; cbn.
  - intros v v' k t h. rewrite ref_view_update.
    destruct (decide (v = v')) as [->|]; reflexivity.
  - intros v v' k h. rewrite ref_view_update.
    destruct (decide (v = v')) as [->|]; reflexivity.
  - intros cmd args v k h _. unfold ref_run_command.
    repeat case_decide; reflexivity.
Qed.

#[export] Instance ref_panel_laws : PanelLaws RefHost nat.
Proof.
  split; cbn.
  - intros n h. unfold ref_get_output_panel.
    destruct (rh_panels h !! n) eqn:Hn; cbn; [exact Hn|].
    apply lookup_insert_eq.
  - intros n v h Hn. unfold ref_get_output_panel. rewrite Hn. reflexivity.
  - reflexivity.
Qed.

#[export] Instance ref_buffer_laws : BufferLaws RefHost nat.
Proof.
  split; cbn.
  - intros v t h. rewrite ref_view_update, decide_True by reflexivity.
    reflexivity.
  - intros v h. rewrite ref_view_update, decide_True by reflexivity.
    reflexivity.
Qed.

Lemma write_appends_text_run :
  let self := MkOutputPanel "exec" 0 None None in
  let w := (write self "$ make" ref_world).2 in
  buffer_content 0 (host (write self "b" (write self "a" w).2).2)
  = "$ makeab"
  ∧ buffer_content 0 (host (write_line self "b" (write_line self "a" w).2).2)
    = "$ makea" +:+ LF +:+ "b" +:+ LF.
Proof.
  intros self w.
  destruct (write_appends_text self "a" w) as (_ & _ & Hab & Hlines).
  exact (conj Hab Hlines).
Defined.

Lemma clear_empties_buffer_run :
  let self := MkOutputPanel "exec" 0 None None in
  let ms := [CallWrite "a"; CallWriteLine "b"; CallWrite "c"] in
  let r := invoke_all self ms ref_world in
  buffer_content 0 (host r.2) = "ab" +:+ LF +:+ "c"
  ∧ buffer_content 0 (host (clear r.1 r.2).2) = "".
Proof.
  intros self ms r.
  destruct (clear_empties_buffer self ms ref_world) as [Hwritten Hcleared].
  destruct Hwritten as [_ Hbuf]; [repeat constructor|].
  exact (conj Hbuf Hcleared).
Defined.

Lemma construct_get_or_create_run :
  let r := __init__ "exec" (Some "a") None (Some "/src") ref_world in
  let r' := __init__ "exec" None (Some "l") None r.2 in
  r.1 = MkOutputPanel "exec" 0 (Some "a") None
  ∧ calls_since ref_world r.2
    = [CallGetOutputPanel "exec";
       CallSettingsSet 0 "result_base_dir" "/src";
       CallSettingsSet 0 "result_file_regex" "a";
       CallGetOutputPanel "exec"]
  ∧ find_output_panel "exec" (host r.2) = Some 0
  ∧ view r'.1 = 0.
Proof.
  intros r r'.
  destruct (construct_get_or_create "exec" (Some "a") None (Some "/src")
              None (Some "l") None ref_world)
    as (Hself & Hcalls & _ & Hfind & Hsame).
  exact (conj Hself (conj Hcalls (conj Hfind Hsame))).
Defined.

(** ** The scope table *)

Example LF_is_newline : LF = String (ascii_of_nat 10) "".
Proof. reflexivity. Qed.

Example entries_head :
  take 4 (entries DATA)
  = [(4, "comment"); (8, "line"); (12, "double-slash"); (12, "double-dash")].
Proof. vm_compute. reflexivity. Qed.

Example scope_tree_head :
  head scope_tree
  = Some (Node "comment"
            [Node "line" [Node "double-slash" []; Node "double-dash" [];
                          Node "number-sign" []; Node "percentage" []];
             Node "block" [Node "documentation" []]]).
Proof. vm_compute. reflexivity. Qed.

Example all_scopes_head :
  take 3 all_scopes = ["comment"; "comment.line"; "comment.line.double-slash"].
Proof. vm_compute. reflexivity. Qed.

Example leaf_scopes_ends :
  head leaf_scopes = Some "comment.line.double-slash"
  ∧ last leaf_scopes = Some "variable.other.member"
  ∧ length leaf_scopes = 136.
Proof. vm_compute. repeat split. Qed.

Example hyphenated_lowercase_cases :
  hyphenated_lowercase "double-slash" = true
  ∧ hyphenated_lowercase "-slash" = false
  ∧ hyphenated_lowercase "double--slash" = false
  ∧ hyphenated_lowercase "slash-" = false
  ∧ hyphenated_lowercase "Slash" = false
  ∧ hyphenated_lowercase "" = false.
Proof. vm_compute. repeat split. Qed.

(** C9: read by indentation, the table has 183 nodes, one per non-blank
    line; no two nodes have the same dot-joined path from the root, so no
    two leaves have either; and every label is made of non-empty runs of
    the letters a-z separated by single hyphens, so it has no character
    other than a-z and the hyphen. *)
Theorem scope_table_well_formed :
  length (entries DATA) = 183
  ∧ length all_scopes = 183
  ∧ NoDup all_scopes
  ∧ NoDup leaf_scopes
  ∧ Forall (λ lbl, hyphenated_lowercase lbl = true ∧ lower_or_hyphen lbl = true)
           (flat_map labels scope_tree).
Proof.
  split; [vm_compute; reflexivity|].
  split; [vm_compute; reflexivity|].
  split; [apply (bool_decide_unpack _); vm_compute; exact I|].
  split; [apply (bool_decide_unpack _); vm_compute; exact I|].
  apply (bool_decide_unpack _). vm_compute. exact I.
Qed.

(** * More on the wrapper *)

(** ** Supplying values *)

Lemma supplied_None_r (s : option string) : supplied s None = s.
Proof. reflexivity. Qed.

Lemma supplied_None_l (a : option string) : supplied None a = a.
Proof. destruct a; reflexivity. Qed.

Lemma supplied_assoc (s a b : option string) :
  supplied (supplied s a) b = supplied s (supplied a b).
Proof. destruct b; reflexivity. Qed.

Lemma supplied_twice (s a : option string) : supplied (supplied s a) a = supplied s a.
Proof. destruct a; reflexivity. Qed.

Lemma last_supplied_cons (s a : option string) (args : list (option string)) :
  last_supplied s (a :: args) = last_supplied (supplied s a) args.
Proof. reflexivity. Qed.

(** What was stored before only matters when nothing is supplied. *)
Lemma last_supplied_from (s a : option string) (args : list (option string)) :
  last_supplied (supplied s a) args = supplied s (last_supplied a args).
Proof.
  revert a. induction args as [|x args IH]; intros a; [reflexivity|].
  rewrite !last_supplied_cons, supplied_assoc. apply IH.
Qed.

Lemma last_supplied_start (s : option string) (args : list (option string)) :
  last_supplied s args = supplied s (last_supplied None args).
Proof. exact (last_supplied_from s None args). Qed.

Lemma last_supplied_is_Some (s : option string) (args : list (option string)) :
  is_Some s → is_Some (last_supplied s args).
Proof.
  revert s. induction args as [|x args IH]; intros s Hs; [exact Hs|].
  rewrite last_supplied_cons. apply IH. destruct x; [eexists; reflexivity|exact Hs].
Qed.

(** ** Attributes and the call log over any sequence of calls *)

Section Sequences.

Context {W V : Type} `{HostWindow W V}.

#[local] Abbreviation World := (World W V).
#[local] Abbreviation OutputPanel := (OutputPanel V).

Implicit Types (self : OutputPanel) (w : World) (v : V).
Implicit Types (f l p : option string) (n key : string) (m : Method).
Implicit Types (ms : list Method) (cs : list (HostCall V)).

Lemma invoke_attrs self m w :
  (invoke self m w).1
  = MkOutputPanel (panel_name self) (view self)
      (supplied (file_regex self) (file_regex_of m))
      (supplied (line_regex self) (line_regex_of m)).
Proof.
  destruct m; cbn [invoke file_regex_of line_regex_of];
    try (destruct self; reflexivity).
  - apply set_path_attrs.
  - rewrite set_regex_as_set_path. apply set_path_attrs.
Qed.

Lemma invoke_all_attrs self ms w :
  (invoke_all self ms w).1
  = MkOutputPanel (panel_name self) (view self)
      (last_supplied (file_regex self) (file_regex_of <$> ms))
      (last_supplied (line_regex self) (line_regex_of <$> ms)).
Proof.
  revert self w. induction ms as [|m ms IH]; intros self w.
  - destruct self; reflexivity.
  - rewrite invoke_all_cons, IH, invoke_attrs. reflexivity.
Qed.

(** The host calls of one method call. *)
Lemma invoke_log self m w :
  ∃ cs, calls (invoke self m w).2 = calls w ++ cs
        ∧ filter (λ c, is_fetch c) cs
          = (if is_setter m then [CallGetOutputPanel (panel_name self)] else [])
        ∧ (1 ≤ length cs ≤ 4)
        ∧ Forall (λ c, ∀ v, call_view c = Some v → v = view self) cs
        ∧ written_keys cs `sublist_of` result_keys.
Proof.
  assert (Hpath : ∀ p f l,
    let cs := settings_write (view self) "result_base_dir" p
              ++ settings_write (view self) "result_file_regex" f
              ++ settings_write (view self) "result_line_regex" l
              ++ [CallGetOutputPanel (panel_name self)] in
    filter (λ c, is_fetch c) cs = [CallGetOutputPanel (panel_name self)]
    ∧ (1 ≤ length cs ≤ 4)
    ∧ Forall (λ c, ∀ v, call_view c = Some v → v = view self) cs
    ∧ written_keys cs `sublist_of` result_keys).
  { intros p f l. unfold result_keys.
    destruct p, f, l; cbn; (split; [reflexivity|]); (split; [lia|]);
      (split; [repeat constructor; cbn; congruence|]);
      repeat first [ apply sublist_nil | apply sublist_skip_same
                   | apply sublist_skip | apply sublist_cons ];
      by repeat constructor. }
  destruct m as [p f l|f l|t|t| | |].
  - eexists. split; [apply set_path_calls|]. apply Hpath.
  - eexists. split; [cbn [invoke]; rewrite set_regex_as_set_path;
                     apply set_path_calls|].
    apply (Hpath None).
  - eexists. split; [reflexivity|]. cbn. repeat split; try lia.
    + repeat constructor. cbn. congruence.
    + apply sublist_nil_l.
  - eexists. split; [reflexivity|]. cbn. repeat split; try lia.
    + repeat constructor. cbn. congruence.
    + apply sublist_nil_l.
  - eexists. split; [reflexivity|]. cbn. repeat split; try lia.
    + repeat constructor. cbn. congruence.
    + apply sublist_nil_l.
  - eexists. split; [reflexivity|]. cbn. repeat split; try lia.
    + repeat constructor. cbn. congruence.
    + apply sublist_nil_l.
  - eexists. split; [reflexivity|]. cbn. repeat split; try lia.
    + repeat constructor. cbn. congruence.
    + apply sublist_nil_l.
Qed.

(** The host calls of a sequence of method calls. *)
Lemma invoke_all_log self ms w :
  ∃ cs, calls (invoke_all self ms w).2 = calls w ++ cs
        ∧ filter (λ c, is_fetch c) cs
          = replicate (length (filter (λ m, is_setter m) ms))
                      (CallGetOutputPanel (panel_name self))
        ∧ (length ms ≤ length cs ≤ 4 * length ms)
        ∧ Forall (λ c, ∀ v, call_view c = Some v → v = view self) cs.
Proof.
  revert self w. induction ms as [|m ms IH]; intros self w.
  - exists []. cbn. rewrite app_nil_r. repeat split; try lia. constructor.
  - destruct (invoke_log self m w) as (cs1 & Hcs1 & Hfetch1 & Hlen1 & Hview1 & _).
    destruct (IH (invoke self m w).1 (invoke self m w).2)
      as (cs2 & Hcs2 & Hfetch2 & Hlen2 & Hview2).
    rewrite invoke_attrs in Hfetch2, Hview2. cbn in Hfetch2, Hview2.
    exists (cs1 ++ cs2). rewrite invoke_all_cons. split; [|split; [|split]].
    + rewrite Hcs2, Hcs1, app_assoc. reflexivity.
    + rewrite filter_app, Hfetch1, Hfetch2, filter_cons.
      destruct (is_setter m); reflexivity.
    + rewrite length_app. cbn [length]. lia.
    + apply Forall_app. split; assumption.
Qed.

(** X1: whatever methods are called on a panel and whatever the host does,
    the panel keeps its name and the view it was given, and each regex it
    stores is the last one supplied (the one stored before if none was);
    calls other than the setters change no attribute. *)
Theorem attributes_after_calls self ms w :
  (invoke_all self ms w).1
  = MkOutputPanel (panel_name self) (view self)
      (last_supplied (file_regex self) (file_regex_of <$> ms))
      (last_supplied (line_regex self) (line_regex_of <$> ms)).
Proof. apply invoke_all_attrs. Qed.

(** X2: a stored regex is never dropped: if [file_regex] (or [line_regex])
    is stored, it is still stored after any sequence of calls, since an
    omitted argument keeps it and a supplied one replaces it. *)
Theorem stored_regex_stays_stored self ms w :
  (is_Some (file_regex self) → is_Some (file_regex (invoke_all self ms w).1))
  ∧ (is_Some (line_regex self) → is_Some (line_regex (invoke_all self ms w).1)).
Proof.
  rewrite invoke_all_attrs. cbn. split; apply last_supplied_is_Some.
Qed.

(** X3: a sequence of calls fetches the panel exactly once per [set_path]
    or [set_regex] call in it, each time under the panel's own name;
    [write], [write_line], [clear], [show] and [hide] never fetch. *)
Theorem fetches_match_setters self ms w :
  filter (λ c, is_fetch c) (calls_since w (invoke_all self ms w).2)
  = replicate (length (filter (λ m, is_setter m) ms))
              (CallGetOutputPanel (panel_name self)).
Proof.
  destruct (invoke_all_log self ms w) as (cs & Hcs & Hfetch & _).
  rewrite (calls_since_app _ _ _ Hcs). exact Hfetch.
Qed.

(** X5: every settings write and every buffer edit a panel makes is
    addressed to the view it was given at construction, also after
    [set_regex] has fetched the panel again. *)
Theorem only_own_view_addressed self ms w :
  Forall (λ c, ∀ v, call_view c = Some v → v = view self)
         (calls_since w (invoke_all self ms w).2).
Proof.
  destruct (invoke_all_log self ms w) as (cs & Hcs & _ & _ & Hview).
  rewrite (calls_since_app _ _ _ Hcs). exact Hview.
Qed.

(** X6: within one method call each settings key is written at most once
    and in the order 'result_base_dir', 'result_file_regex',
    'result_line_regex': the keys written form a sublist of that list. *)
Theorem setter_writes_in_order self m w :
  written_keys (calls_since w (invoke self m w).2) `sublist_of` result_keys.
Proof.
  destruct (invoke_log self m w) as (cs & Hcs & _ & _ & _ & Hkeys).
  rewrite (calls_since_app _ _ _ Hcs). exact Hkeys.
Qed.

End Sequences.

(** ** Settings over any sequence of calls *)

Section SettingsSequences.

Context {W V : Type} `{HostWindow W V}.
Context `{!SettingsLaws W V} `{!SettingsFrameLaws W V}.

#[local] Abbreviation World := (World W V).
#[local] Abbreviation OutputPanel := (OutputPanel V).

Implicit Types (self : OutputPanel) (w : World) (v : V) (h : W).
Implicit Types (f l p o : option string) (n k : string) (m : Method).
Implicit Types (ms : list Method).

(** A call that is not a setter leaves every setting of every view. *)
Lemma invoke_other_settings self m w v k :
  is_setter m = false →
  settings_get v k (host (invoke self m w).2) = settings_get v k (host w).
Proof.
  destruct m; cbn [is_setter]; try discriminate; intros _.
  - apply settings_get_append.
  - apply settings_get_append.
  - apply settings_get_erase.
  - apply settings_get_visibility. left. reflexivity.
  - apply settings_get_visibility. right. reflexivity.
Qed.

Lemma not_setter_args m :
  is_setter m = false →
  path_of m = None ∧ file_regex_of m = None ∧ line_regex_of m = None.
Proof. destruct m; cbn; try discriminate; repeat split. Qed.

(** The three keys after one call of any method. *)
Lemma invoke_settings self m w :
  let v := view self in
  let h' := host (invoke self m w).2 in
  settings_get v "result_base_dir" h'
  = supplied (settings_get v "result_base_dir" (host w)) (path_of m)
  ∧ settings_get v "result_file_regex" h'
    = (if is_setter m
       then supplied (settings_get v "result_file_regex" (host w))
                     (supplied (file_regex self) (file_regex_of m))
       else settings_get v "result_file_regex" (host w))
  ∧ settings_get v "result_line_regex" h'
    = (if is_setter m
       then supplied (settings_get v "result_line_regex" (host w))
                     (supplied (line_regex self) (line_regex_of m))
       else settings_get v "result_line_regex" (host w)).
Proof.
  intros v h'. subst v h'. destruct (is_setter m) eqn:Hm.
  - destruct m as [p f l|f l| | | | |]; try discriminate.
    + apply set_path_settings.
    + cbn [invoke]. rewrite set_regex_as_set_path. apply set_path_settings.
  - destruct (not_setter_args m Hm) as (-> & _ & _).
    rewrite !invoke_other_settings by exact Hm. repeat split.
Qed.

Lemma last_supplied_no_setter (s : option string) (arg : Method → option string) ms :
  (∀ m, is_setter m = false → arg m = None) →
  existsb is_setter ms = false →
  last_supplied s (arg <$> ms) = s.
Proof.
  intros Harg. induction ms as [|m ms IH]; [reflexivity|]. cbn [existsb].
  intros [Hm Hms]%orb_false_elim.
  rewrite fmap_cons, last_supplied_cons, (Harg m Hm). apply IH, Hms.
Qed.

(** The value a regex key holds after a sequence of calls, from the value
    it held before, the regex stored before and the arguments supplied. *)
Lemma regex_key_after (before stored : option string) (arg : Method → option string)
    m ms (after : option string) :
  (∀ m, is_setter m = false → arg m = None) →
  let key1 := if is_setter m
              then supplied before (supplied stored (arg m)) else before in
  after = (if existsb is_setter ms
           then supplied key1 (last_supplied (supplied stored (arg m)) (arg <$> ms))
           else key1) →
  after = (if existsb is_setter (m :: ms)
           then supplied before (last_supplied stored (arg <$> (m :: ms)))
           else before).
Proof.
  intros Harg key1 ->. subst key1. rewrite fmap_cons, last_supplied_cons.
  cbn [existsb]. destruct (is_setter m) eqn:Hm; cbn [orb].
  - destruct (existsb is_setter ms) eqn:Hms.
    + rewrite <- last_supplied_from, supplied_twice. apply last_supplied_from.
    + rewrite (last_supplied_no_setter _ arg ms Harg Hms). reflexivity.
  - reflexivity.
Qed.

Lemma invoke_all_settings self ms w :
  let v := view self in
  let h' := host (invoke_all self ms w).2 in
  settings_get v "result_base_dir" h'
  = supplied (settings_get v "result_base_dir" (host w))
             (last_supplied None (path_of <$> ms))
  ∧ settings_get v "result_file_regex" h'
    = (if existsb is_setter ms
       then supplied (settings_get v "result_file_regex" (host w))
                     (last_supplied (file_regex self) (file_regex_of <$> ms))
       else settings_get v "result_file_regex" (host w))
  ∧ settings_get v "result_line_regex" h'
    = (if existsb is_setter ms
       then supplied (settings_get v "result_line_regex" (host w))
                     (last_supplied (line_regex self) (line_regex_of <$> ms))
       else settings_get v "result_line_regex" (host w)).
Proof.
  cbv zeta. revert self w. induction ms as [|m ms IH]; intros self w.
  - repeat split.
  - destruct (invoke_settings self m w) as (Hbase & Hfile & Hline).
    destruct (IH (invoke self m w).1 (invoke self m w).2)
      as (IHbase & IHfile & IHline).
    assert (Hv : view (invoke self m w).1 = view self)
      by (rewrite invoke_attrs; reflexivity).
    assert (Hf : file_regex (invoke self m w).1
                 = supplied (file_regex self) (file_regex_of m))
      by (rewrite invoke_attrs; reflexivity).
    assert (Hl : line_regex (invoke self m w).1
                 = supplied (line_regex self) (line_regex_of m))
      by (rewrite invoke_attrs; reflexivity).
    rewrite Hv in IHbase. rewrite Hv, Hf in IHfile. rewrite Hv, Hl in IHline.
    rewrite invoke_all_cons. split; [|split].
    + rewrite IHbase, Hbase, fmap_cons, last_supplied_cons, supplied_None_l.
      rewrite (last_supplied_start (path_of m)), supplied_assoc. reflexivity.
    + apply (regex_key_after _ (file_regex self) file_regex_of m ms).
      * intros m' Hm'. apply (not_setter_args m' Hm').
      * rewrite IHfile, Hfile. reflexivity.
    + apply (regex_key_after _ (line_regex self) line_regex_of m ms).
      * intros m' Hm'. apply (not_setter_args m' Hm').
      * rewrite IHline, Hline. reflexivity.
Qed.

Lemma invoke_as_set_path self m w :
  is_setter m = true →
  invoke self m w
  = set_path self (path_of m) (file_regex_of m) (line_regex_of m) w.
Proof.
  destruct m; cbn; try discriminate; intros _; [reflexivity|].
  apply set_regex_as_set_path.
Qed.

(** X7: after any sequence of calls, 'result_base_dir' on the panel's view
    holds the last [path] a [set_path] call of the sequence supplied, and
    what it held before if none did.  The path is not stored in the panel:
    unlike the regexes it is not written again by later calls. *)
Theorem base_dir_last_write_wins self ms w :
  settings_get (view self) "result_base_dir" (host (invoke_all self ms w).2)
  = supplied (settings_get (view self) "result_base_dir" (host w))
             (last_supplied None (path_of <$> ms)).
Proof. apply invoke_all_settings. Qed.

(** X8: after a sequence of calls of any methods with at least one setter
    call among them, each regex key holds the last regex supplied (the one
    stored before the sequence if none was supplied), and what it held
    before if there is none at all; calls of [write], [write_line], [clear],
    [show] and [hide] in between change nothing of this.  Without a setter
    call the regex keys are as before. *)
Theorem regex_keys_after_calls self ms w :
  let v := view self in
  let h' := host (invoke_all self ms w).2 in
  settings_get v "result_file_regex" h'
  = (if existsb is_setter ms
     then supplied (settings_get v "result_file_regex" (host w))
                   (last_supplied (file_regex self) (file_regex_of <$> ms))
     else settings_get v "result_file_regex" (host w))
  ∧ settings_get v "result_line_regex" h'
    = (if existsb is_setter ms
       then supplied (settings_get v "result_line_regex" (host w))
                     (last_supplied (line_regex self) (line_regex_of <$> ms))
       else settings_get v "result_line_regex" (host w)).
Proof. apply invoke_all_settings. Qed.

(** X9: repeating a [set_path] or [set_regex] call with the same arguments
    changes nothing: the panel's attributes and every setting of its view
    are what they were after the first call. *)
Theorem setter_twice_same self m w :
  is_setter m = true →
  let r1 := invoke self m w in
  let r2 := invoke r1.1 m r1.2 in
  r2.1 = r1.1
  ∧ ∀ k, settings_get (view self) k (host r2.2)
         = settings_get (view self) k (host r1.2).
Proof.
  intros Hm r1 r2. subst r1 r2. rewrite !(invoke_as_set_path _ m) by exact Hm.
  set (p := path_of m). set (f := file_regex_of m). set (l := line_regex_of m).
  pose proof (set_path_attrs self p f l w) as Hattrs.
  pose proof (set_path_settings self p f l w) as (Hbase & Hfile & Hline).
  destruct (set_path self p f l w) as [self1 w1]. cbn [fst snd] in *.
  subst self1.
  set (self1 := MkOutputPanel (panel_name self) (view self)
                  (supplied (file_regex self) f) (supplied (line_regex self) l)).
  pose proof (set_path_settings self1 p f l w1) as (Hbase2 & Hfile2 & Hline2).
  cbn [self1 view file_regex line_regex] in Hbase2, Hfile2, Hline2.
  rewrite supplied_twice in Hfile2, Hline2.
  split.
  - rewrite set_path_attrs. cbn. rewrite !supplied_twice. reflexivity.
  - intros k. destruct (decide (k ∈ result_keys)) as [Hk|Hk].
    + unfold result_keys in Hk.
      repeat (apply elem_of_cons in Hk as [->|Hk]).
      * rewrite Hbase2, Hbase. apply supplied_twice.
      * rewrite Hfile2, Hfile. apply supplied_twice.
      * rewrite Hline2, Hline. apply supplied_twice.
      * by apply not_elem_of_nil in Hk.
    + apply (set_path_frame self1). exact Hk.
Qed.

End SettingsSequences.

(** ** Writes and clears together *)

Section BufferSequences.

Context {W V : Type} `{HostWindow W V} `{!BufferLaws W V}.

#[local] Abbreviation World := (World W V).
#[local] Abbreviation OutputPanel := (OutputPanel V).

Implicit Types (self : OutputPanel) (w : World) (v : V).
Implicit Types (t a b : string) (ms : list Method).

(** X10: only the text counts, not how it is cut into calls: [write a]
    then [write b] leaves the buffer that [write (a + b)] leaves,
    [write_line t] the one that [write t] then [write "\n"] leaves, and
    [write ""] leaves the buffer as it was. *)
Theorem write_splits self a b w :
  let content w := buffer_content (view self) (host w) in
  content (write self b (write self a w).2).2
  = content (write self (a +:+ b) w).2
  ∧ content (write_line self a w).2
    = content (write self LF (write self a w).2).2
  ∧ content (write self "" w).2 = content w.
Proof.
  intros content. subst content. cbv beta.
  rewrite write_line_buffer, !write_buffer, !append_assoc, append_empty_r.
  repeat split.
Qed.

(** X11: after a [clear], a sequence of [write] and [write_line] calls
    leaves exactly the text written, whatever the buffer held before the
    [clear]. *)
Theorem clear_then_writes self ms w :
  Forall (λ m, is_writer m) ms →
  buffer_content (view self) (host (invoke_all self (CallClear :: ms) w).2)
  = written_text ms.
Proof.
  intros Hms. rewrite invoke_all_cons.
  change (invoke self CallClear w) with (self, (clear self w).2). cbn [fst snd].
  destruct (invoke_all_writers self ms (clear self w).2 Hms) as [_ ->].
  unfold clear at 1, view_clear, perform. cbn [host snd].
  rewrite buffer_content_erase. reflexivity.
Qed.

End BufferSequences.

(** ** The sequence properties on the reference host *)

Lemma stored_regex_stays_stored_run :
  let self := MkOutputPanel "exec" 0 (Some "a") None in
  is_Some (file_regex
             (invoke_all self [CallSetRegex None (Some "l"); CallWrite "x";
                               CallSetPath (Some "/src") None None]
                         ref_world).1).
Proof.
  intros self.
  apply (stored_regex_stays_stored self
           [CallSetRegex None (Some "l"); CallWrite "x";
            CallSetPath (Some "/src") None None] ref_world).
  eexists. reflexivity.
Defined.

Lemma base_dir_last_write_wins_run :
  let self := MkOutputPanel "exec" 0 None None in
  let w := MkWorld (settings_set 0 "result_base_dir" "/old" ref_empty) [] in
  settings_get 0 "result_base_dir"
    (host (invoke_all self [CallSetPath (Some "/a") None None; CallWrite "x";
                            CallSetPath (Some "/b") None None;
                            CallSetRegex None None] w).2)
  = Some "/b"
  ∧ settings_get 0 "result_base_dir"
      (host (invoke_all self [CallSetRegex (Some "r") None; CallClear] w).2)
    = Some "/old".
Proof.
  intros self w.
  exact (conj
    (base_dir_last_write_wins self
       [CallSetPath (Some "/a") None None; CallWrite "x";
        CallSetPath (Some "/b") None None; CallSetRegex None None] w)
    (base_dir_last_write_wins self
       [CallSetRegex (Some "r") None; CallClear] w)).
Defined.

Lemma regex_keys_after_calls_run :
  let self := MkOutputPanel "exec" 0 (Some "a") None in
  let w := MkWorld (settings_set 0 "result_line_regex" "old" ref_empty) [] in
  let ms := [CallWrite "x"; CallSetRegex None None; CallShow;
             CallWriteLine "y"] in
  settings_get 0 "result_file_regex" (host (invoke_all self ms w).2) = Some "a"
  ∧ settings_get 0 "result_line_regex" (host (invoke_all self ms w).2)
    = Some "old".
Proof.
  intros self w ms. exact (regex_keys_after_calls self ms w).
Defined.

Lemma setter_twice_same_run :
  let self := MkOutputPanel "exec" 0 (Some "a") None in
  let m := CallSetPath (Some "/src") None (Some "l") in
  let r1 := invoke self m ref_world in
  let r2 := invoke r1.1 m r1.2 in
  r2.1 = r1.1
  ∧ settings_get 0 "result_line_regex" (host r2.2)
    = settings_get 0 "result_line_regex" (host r1.2).
Proof.
  intros self m r1 r2.
  destruct (setter_twice_same self m ref_world eq_refl) as [Hattrs Hkeys].
  exact (conj Hattrs (Hkeys "result_line_regex")).
Defined.

Lemma write_splits_run :
  let self := MkOutputPanel "exec" 0 None None in
  buffer_content 0 (host (write self "cd" (write self "ab" ref_world).2).2)
  = buffer_content 0 (host (write self "abcd" ref_world).2).
Proof.
  intros self.
  destruct (write_splits self "ab" "cd" ref_world) as (Hsplit & _ & _).
  exact Hsplit.
Defined.

Lemma clear_then_writes_run :
  let self := MkOutputPanel "exec" 0 None None in
  let w := (write self "old output" ref_world).2 in
  buffer_content 0
    (host (invoke_all self [CallClear; CallWriteLine "a"; CallWrite "b"] w).2)
  = "a" +:+ LF +:+ "b".
Proof.
  intros self w.
  apply (clear_then_writes self [CallWriteLine "a"; CallWrite "b"] w).
  repeat constructor.
Defined.

(** ** Construction and settings *)

Section ConstructionSettings.

Context {W V : Type} `{HostWindow W V} `{!SettingsLaws W V}.

#[local] Abbreviation World := (World W V).
#[local] Abbreviation OutputPanel := (OutputPanel V).

Implicit Types (self : OutputPanel) (w : World) (v : V) (h : W).
Implicit Types (f l p o : option string) (n k : string).

(** X12: construction changes a setting of the panel's view only where an
    argument is given: each of the three result keys holds the argument
    when one was supplied and what it held before otherwise, so wrapping an
    existing panel without arguments leaves all its settings in place. *)
Theorem init_settings n f l p w :
  let r := __init__ n f l p w in
  let v := view r.1 in
  settings_get v "result_base_dir" (host r.2)
  = supplied (settings_get v "result_base_dir" (host w)) p
  ∧ settings_get v "result_file_regex" (host r.2)
    = supplied (settings_get v "result_file_regex" (host w)) f
  ∧ settings_get v "result_line_regex" (host r.2)
    = supplied (settings_get v "result_line_regex" (host w)) l
  ∧ ∀ v' k, settings_get v' k (host (__init__ n None None None w).2)
            = settings_get v' k (host w).
Proof.
  intros r v. subst r v. split; [|split; [|split]]; cycle 3.
  { intros v' k. rewrite init_run, set_path_run, set_regex_run. cbn.
    rewrite !settings_get_fetch. reflexivity. }
  all: rewrite init_run.
  all: pose proof (set_path_settings
                     (MkOutputPanel n (get_output_panel n (host w)).1 None None)
                     p f l (MkWorld (get_output_panel n (host w)).2
                                    (calls w ++ [CallGetOutputPanel n])))
         as (Hbase & Hfile & Hline).
  all: cbn [view host file_regex line_regex] in Hbase, Hfile, Hline.
  all: rewrite settings_get_fetch in Hbase, Hfile, Hline.
  all: rewrite supplied_None_l in Hfile, Hline.
  all: rewrite set_path_attrs; cbn [view]; assumption.
Qed.


End ConstructionSettings.

(** ** Panel names in the visibility commands *)

Section Visibility.

Context {W V : Type} `{HostWindow W V}.

#[local] Abbreviation World := (World W V).
#[local] Abbreviation OutputPanel := (OutputPanel V).

(** X14: the argument of [show_panel] and [hide_panel] identifies the
    panel: two panels send the same [show] (or [hide]) command exactly when
    they have the same name. *)
Theorem visibility_command_names (p1 p2 : OutputPanel) (w : World) :
  (calls_since w (show p1 w).2 = calls_since w (show p2 w).2
   ↔ panel_name p1 = panel_name p2)
  ∧ (calls_since w (hide p1 w).2 = calls_since w (hide p2 w).2
     ↔ panel_name p1 = panel_name p2).
Proof.
  assert (Hinj : ∀ cmd,
    calls_since w (window_run_command cmd {[ "panel" := output_name p1 ]} w).2
    = calls_since w (window_run_command cmd {[ "panel" := output_name p2 ]} w).2
    ↔ panel_name p1 = panel_name p2).
  { intros cmd.
    rewrite !(calls_since_app w _ [CallRunCommand cmd _]) by reflexivity.
    split.
    - intros Heq.
      assert (Hargs : ({[ "panel" := output_name p1 ]} : gmap string string)
                      = {[ "panel" := output_name p2 ]}) by congruence.
      apply (f_equal (λ a : gmap string string, a !! "panel")) in Hargs.
      rewrite !lookup_singleton_eq in Hargs.
      assert (Hname : output_name p1 = output_name p2) by congruence.
      unfold output_name in Hname. by apply (inj _) in Hname.
    - unfold output_name. intros ->. reflexivity. }
  split; apply Hinj.
Qed.

End Visibility.

Lemma init_settings_run :
  let w := MkWorld (settings_set 0 "result_file_regex" "old"
                      (ref_get_output_panel "exec" ref_empty).2) [] in
  let r := __init__ "exec" None (Some "l") (Some "") w in
  view r.1 = 0
  ∧ settings_get 0 "result_base_dir" (host r.2) = Some ""
  ∧ settings_get 0 "result_file_regex" (host r.2) = Some "old"
  ∧ settings_get 0 "result_line_regex" (host r.2) = Some "l".
Proof.
  intros w r.
  destruct (init_settings "exec" None (Some "l") (Some "") w)
    as (Hbase & Hfile & Hline & _).
  exact (conj eq_refl (conj Hbase (conj Hfile Hline))).
Defined.


(** * The setters: what they write, and what the host then holds *)

Section SettersOnTheLog.

Context {W V : Type} `{HostWindow W V}.

#[local] Abbreviation World := (World W V).
#[local] Abbreviation OutputPanel := (OutputPanel V).

Implicit Types (self : OutputPanel) (w : World) (v : V).
Implicit Types (f l p : option string) (n k : string) (m : Method).
Implicit Types (ms pre : list Method).

Lemma invoke_all_snoc self pre m w :
  invoke_all self (pre ++ [m]) w
  = invoke (invoke_all self pre w).1 m (invoke_all self pre w).2.
Proof.
  revert self w. induction pre as [|m' pre IH]; intros self w.
  - cbn [app]. rewrite invoke_all_cons. cbn.
    destruct (invoke self m w); reflexivity.
  - rewrite <- app_comm_cons, !invoke_all_cons. apply IH.
Qed.

Lemma last_supplied_snoc (s : option string) (arg : Method → option string) pre m :
  last_supplied s (arg <$> (pre ++ [m]))
  = supplied (last_supplied s (arg <$> pre)) (arg m).
Proof. unfold last_supplied. rewrite fmap_app, foldl_app. reflexivity. Qed.

(** The calls of one setter call made after the calls [pre]. *)
Lemma setter_calls_after self pre m w :
  is_setter m = true →
  calls_since (invoke_all self pre w).2 (invoke_all self (pre ++ [m]) w).2
  = settings_write (view self) "result_base_dir" (path_of m)
    ++ settings_write (view self) "result_file_regex"
         (last_supplied (file_regex self) (file_regex_of <$> (pre ++ [m])))
    ++ settings_write (view self) "result_line_regex"
         (last_supplied (line_regex self) (line_regex_of <$> (pre ++ [m])))
    ++ [CallGetOutputPanel (panel_name self)].
Proof.
  intros Hm. apply calls_since_app.
  rewrite invoke_all_snoc, (invoke_as_set_path _ m) by exact Hm.
  rewrite set_path_calls, invoke_all_attrs. cbn [view panel_name file_regex line_regex].
  rewrite !last_supplied_snoc. reflexivity.
Qed.

(** C1, as the code has it: take any sequence of [set_regex] and [set_path]
    calls on a panel and stop after any one of them.  The stored
    [file_regex] is then the last value supplied for it (what was stored
    before the sequence counts as supplied first), and that call has
    written this value to 'result_file_regex', or made no write to the key
    when there is no such value; likewise for [line_regex] and
    'result_line_regex'.  The writes come before the call's fetch of the
    panel.  On a host whose settings are a key/value store that a panel
    fetch leaves alone ([SettingsLaws]) the keys hold these values after
    the call. *)
Theorem regex_last_write_wins self ms pre m w :
  Forall (λ m, is_setter m) ms →
  (pre ++ [m]) `prefix_of` ms →
  let before := invoke_all self pre w in
  let r := invoke_all self (pre ++ [m]) w in
  let a := last_supplied (file_regex self) (file_regex_of <$> (pre ++ [m])) in
  let b := last_supplied (line_regex self) (line_regex_of <$> (pre ++ [m])) in
  file_regex r.1 = a
  ∧ line_regex r.1 = b
  ∧ calls_since before.2 r.2
    = settings_write (view self) "result_base_dir" (path_of m)
      ++ settings_write (view self) "result_file_regex" a
      ++ settings_write (view self) "result_line_regex" b
      ++ [CallGetOutputPanel (panel_name self)]
  ∧ (SettingsLaws W V →
     (∀ x, a = Some x →
           settings_get (view self) "result_file_regex" (host r.2) = Some x)
     ∧ (∀ x, b = Some x →
             settings_get (view self) "result_line_regex" (host r.2) = Some x)).
Proof.
  intros Hms [rest ->] before r a b. subst before r a b.
  apply Forall_app in Hms as [Hsofar _].
  assert (Hm : is_setter m = true).
  { pose proof Hsofar as Hm. apply Forall_app in Hm as [_ Hm].
    apply Forall_inv in Hm. apply Is_true_true_1, Hm. }
  split; [|split; [|split]].
  - rewrite invoke_all_attrs. reflexivity.
  - rewrite invoke_all_attrs. reflexivity.
  - apply setter_calls_after, Hm.
  - intros Hlaws.
    destruct (setters_invariant self (pre ++ [m]) w) as (_ & _ & Hfile & Hline).
    + destruct pre; discriminate.
    + exact Hsofar.
    + split; assumption.
Qed.

Lemma base_dir_not_written self f l w :
  "result_base_dir" ∉ written_keys (calls_since w (set_path self None f l w).2).
Proof.
  rewrite (calls_since_app _ _ _ (set_path_calls self None f l w)).
  destruct (supplied (file_regex self) f), (supplied (line_regex self) l);
    cbn; intros Hin;
    repeat (apply elem_of_cons in Hin as [Hin|Hin]; [discriminate|]);
    by apply not_elem_of_nil in Hin.
Qed.

(** C2, as the code has it: an omitted (or [None]) argument of [set_path]
    or [set_regex] leaves the stored value as it was.  An omitted [path]
    makes no write to 'result_base_dir'; an omitted regex makes no write to
    its key when no value is stored, and writes the stored value to the key
    again when one is.  A supplied value, the empty string included,
    replaces the stored value and is written to the key: [set_path(path="")]
    writes the empty string to 'result_base_dir' and [set_path()] does not
    write that key.  [set_regex] is [set_path] without the path.  On a host
    whose settings are a key/value store that a panel fetch leaves alone
    ([SettingsLaws]) each key afterwards holds the value written, and what
    it held before when none was written. *)
Theorem setters_three_way self p f l w :
  let r := set_path self p f l w in
  let v := view self in
  let a := supplied (file_regex self) f in
  let b := supplied (line_regex self) l in
  r.1 = MkOutputPanel (panel_name self) v a b
  ∧ calls_since w r.2
    = settings_write v "result_base_dir" p
      ++ settings_write v "result_file_regex" a
      ++ settings_write v "result_line_regex" b
      ++ [CallGetOutputPanel (panel_name self)]
  ∧ head (calls_since w (set_path self (Some "") f l w).2)
    = Some (CallSettingsSet v "result_base_dir" "")
  ∧ ("result_base_dir"
     ∉ written_keys (calls_since w (set_path self None f l w).2))
  ∧ set_regex self f l w = set_path self None f l w
  ∧ (SettingsLaws W V →
     settings_get v "result_base_dir" (host r.2)
     = supplied (settings_get v "result_base_dir" (host w)) p
     ∧ settings_get v "result_file_regex" (host r.2)
       = supplied (settings_get v "result_file_regex" (host w)) a
     ∧ settings_get v "result_line_regex" (host r.2)
       = supplied (settings_get v "result_line_regex" (host w)) b).
Proof.
  intros r v a b. subst r v a b. split; [|split; [|split; [|split; [|split]]]].
  - apply set_path_attrs.
  - apply calls_since_app, set_path_calls.
  - rewrite (calls_since_app _ _ _ (set_path_calls self (Some "") f l w)).
    reflexivity.
  - apply base_dir_not_written.
  - apply set_regex_as_set_path.
  - intros Hlaws. apply set_path_settings.
Qed.




End SettersOnTheLog.

(** ** The two hosts side by side *)

(** The clearing host is a get-or-create host like the reference one. *)
#[export] Instance clearing_panel_laws : PanelLaws ClearingHost nat.
Proof.
  split; cbn.
  - intros n h. unfold clearing_get_output_panel. cbn.
    exact (@find_after_fetch RefHost nat ref_host ref_panel_laws n (ch_host h)).
  - intros n v h Hn. unfold clearing_get_output_panel. cbn.
    exact (@fetch_registered RefHost nat ref_host ref_panel_laws n v (ch_host h) Hn).
  - reflexivity.
Qed.

(** C1 as stated fails on the clearing host: [set_regex("a")] stores "a"
    and writes it to 'result_file_regex', then fetches the panel, and the
    key holds nothing after the call. *)
Lemma fetch_may_drop_regex_key :
  let p := (__init__ "exec" None None None clearing_world).1 in
  let w := (__init__ "exec" None None None clearing_world).2 in
  let r := set_regex p (Some "a") None w in
  file_regex r.1 = Some "a"
  ∧ calls_since w r.2
    = [CallSettingsSet (view p) "result_file_regex" "a"; CallGetOutputPanel "exec"]
  ∧ settings_get (view p) "result_file_regex" (host r.2) = None
  ∧ settings_get (view p) "result_file_regex" (host r.2) ≠ Some "a".
Proof. vm_compute. repeat split. discriminate. Qed.

(** C2 as stated fails: a panel that has "a" stored writes "a" to
    'result_file_regex' again on [set_regex()], both arguments omitted, on
    either host.  On the reference host, where a second panel constructed
    on the same name had set the key to "b", the key goes from "b" back to
    "a". *)
Lemma omitted_regex_writes_key :
  (let p1 := (__init__ "exec" (Some "a") None None ref_world).1 in
   let w1 := (__init__ "exec" (Some "a") None None ref_world).2 in
   let w2 := (__init__ "exec" (Some "b") None None w1).2 in
   let w3 := (set_regex p1 None None w2).2 in
   calls_since w2 w3
   = [CallSettingsSet (view p1) "result_file_regex" "a"; CallGetOutputPanel "exec"]
   ∧ "result_file_regex" ∈ written_keys (calls_since w2 w3)
   ∧ settings_get (view p1) "result_file_regex" (host w2) = Some "b"
   ∧ settings_get (view p1) "result_file_regex" (host w3) = Some "a")
  ∧ (let p1 := (__init__ "exec" (Some "a") None None clearing_world).1 in
     let w1 := (__init__ "exec" (Some "a") None None clearing_world).2 in
     let w3 := (set_regex p1 None None w1).2 in
     calls_since w1 w3
     = [CallSettingsSet (view p1) "result_file_regex" "a";
        CallGetOutputPanel "exec"]
     ∧ "result_file_regex" ∈ written_keys (calls_since w1 w3)).
Proof.
  split; vm_compute; repeat split; constructor.
Qed.


(** The setters on the reference host. *)
Lemma regex_last_write_wins_run :
  let self := MkOutputPanel "exec" 0 None (Some "l0") in
  let pre := [CallSetRegex (Some "a") None;
              CallSetPath (Some "/src") (Some "") None] in
  let m := CallSetRegex None (Some "l1") in
  let before := invoke_all self pre ref_world in
  let r := invoke_all self (pre ++ [m]) ref_world in
  file_regex r.1 = Some ""
  ∧ line_regex r.1 = Some "l1"
  ∧ calls_since before.2 r.2
    = [CallSettingsSet 0 "result_file_regex" "";
       CallSettingsSet 0 "result_line_regex" "l1"; CallGetOutputPanel "exec"]
  ∧ settings_get 0 "result_file_regex" (host r.2) = Some ""
  ∧ settings_get 0 "result_line_regex" (host r.2) = Some "l1".
Proof.
  intros self pre m before r.
  destruct (regex_last_write_wins self (pre ++ [m; CallSetRegex None None])
              pre m ref_world)
    as (Hf & Hl & Hcalls & Hkeys).
  - repeat constructor.
  - exists [CallSetRegex None None]. reflexivity.
  - destruct (Hkeys ref_settings_laws) as [Hsf Hsl].
    exact (conj Hf (conj Hl (conj Hcalls
             (conj (Hsf _ eq_refl) (Hsl _ eq_refl))))).
Defined.

Lemma setters_three_way_run :
  let self := MkOutputPanel "exec" 0 (Some "a") None in
  let w := MkWorld (settings_set 0 "result_base_dir" "/src" ref_empty) [] in
  let r := set_path self (Some "") None None w in
  r.1 = self
  ∧ calls_since w r.2
    = [CallSettingsSet 0 "result_base_dir" "";
       CallSettingsSet 0 "result_file_regex" "a"; CallGetOutputPanel "exec"]
  ∧ settings_get 0 "result_base_dir" (host r.2) = Some ""
  ∧ settings_get 0 "result_file_regex" (host r.2) = Some "a"
  ∧ settings_get 0 "result_line_regex" (host r.2) = None.
Proof.
  intros self w r.
  destruct (setters_three_way self (Some "") None None w)
    as (Hself & Hcalls & _ & _ & _ & Hkeys).
  destruct (Hkeys ref_settings_laws) as (Hbase & Hfile & Hline).
  exact (conj Hself (conj Hcalls (conj Hbase (conj Hfile Hline)))).
Defined.

